(** * Builtin audio encoder factory (api/audio_codecs/builtin_audio_encoder_factory.cc)

    A shallow embedding of the [NotAdvertised] decorator and of the template
    argument list of [CreateBuiltinAudioEncoderFactory], together with a model
    of the factory template that the list is handed to, and the properties of
    the composition: first-match dispatch, concatenated capability lists,
    advertisement suppression and the build-flag gated assembly. *)

From Stdlib Require Import List ZArith String Bool Arith Lia.
Import ListNotations.

Local Open Scope Z_scope.
Local Open Scope list_scope.

(** ** Data model *)

(** Modelled from the spec: the declaration of [SdpAudioFormat] is not part of
    the sources at hand.  A NegotiatedFormat is a name, a clock rate, a channel
    count and an ordered mapping from strings to strings. *)
Record SdpAudioFormat : Type := mkSdpAudioFormat {
  name : string;
  clockrate_hz : Z;
  num_channels : Z;
  parameters : list (string * string)
}.

(** Modelled from the spec: the declaration of [AudioCodecInfo] is not part of
    the sources at hand.  A CapabilityInfo carries a sample rate, a channel
    count and a bitrate range. *)
Record AudioCodecInfo : Type := mkAudioCodecInfo {
  sample_rate_hz : Z;
  info_num_channels : Z;
  min_bitrate_bps : Z;
  max_bitrate_bps : Z
}.

(** Modelled from the spec: the declaration of [AudioCodecSpec] is not part of
    the sources at hand.  A SupportedSpec pairs a format template with its
    CapabilityInfo. *)
Record AudioCodecSpec : Type := mkAudioCodecSpec {
  format : SdpAudioFormat;
  info : AudioCodecInfo
}.

Section Model.

(** The encoder instances are opaque to the composition: [AudioEncoder] is
    the abstract class behind [std::unique_ptr<AudioEncoder>]. *)
Context {AudioEncoder : Type}.

(** The static interface that [NotAdvertised<T>] has and expects of [T]:
    a [Config] type and four static member functions.  The vector behind
    the [specs] pointer is passed in and out; a null [unique_ptr] is
    [None]; [payload_type] is an [int]. *)
Record Descriptor : Type := mkDescriptor {
  Config : Type;
  SdpToConfig : SdpAudioFormat -> option Config;
  AppendSupportedEncoders : list AudioCodecSpec -> list AudioCodecSpec;
  QueryAudioEncoder : Config -> AudioCodecInfo;
  MakeAudioEncoder : Config -> Z -> option AudioEncoder
}.

(** [template <typename T> struct NotAdvertised]. *)
Definition NotAdvertised (T : Descriptor) : Descriptor :=
  {| Config := Config T;
     SdpToConfig := fun audio_format => SdpToConfig T audio_format;
     AppendSupportedEncoders := fun specs => specs;
     QueryAudioEncoder := fun config => QueryAudioEncoder T config;
     MakeAudioEncoder :=
       fun config payload_type => MakeAudioEncoder T config payload_type |}.

(** *** The capability contract seen from the spec *)

(** What a descriptor lists: the specs it appends to an empty vector. *)
Definition list_supported_specs (T : Descriptor) : list AudioCodecSpec :=
  AppendSupportedEncoders T [].

(** A descriptor follows the listing contract when all it does to the
    vector is to append its own list at the end. *)
Definition appends_only (T : Descriptor) : Prop :=
  forall specs,
    AppendSupportedEncoders T specs = specs ++ list_supported_specs T.

(** Whether the descriptor's [SdpToConfig] returns a value. *)
Definition accepts (T : Descriptor) (f : SdpAudioFormat) : bool :=
  match SdpToConfig T f with
  | Some _ => true
  | None => false
  end.

(** A descriptor advertises only what it can be negotiated for: the format
    of each listed spec is accepted by the descriptor itself. *)
Definition advertises_own_formats (T : Descriptor) : Prop :=
  Forall (fun s => accepts T (format s) = true) (list_supported_specs T).

(** ** Factory template *)

(** Modelled from the spec: the factory template
    ([CreateAudioEncoderFactory] of audio_encoder_factory_template.h) is not
    part of the sources at hand.  Every descriptor, in list order, appends
    to one vector that starts empty. *)
Fixpoint append_all (ds : list Descriptor) (specs : list AudioCodecSpec)
  : list AudioCodecSpec :=
  match ds with
  | [] => specs
  | T :: Ts => append_all Ts (AppendSupportedEncoders T specs)
  end.

(** Modelled from the spec: get-supported-formats of the factory template
    (not part of the sources at hand). *)
Definition get_supported_formats (ds : list Descriptor)
  : list AudioCodecSpec :=
  append_all ds [].

(** Modelled from the spec: query-info of the factory template (not part of
    the sources at hand).  It iterates the descriptors in order; for the
    first one whose parse-format returns a value it returns that codec's
    query-info of the parsed config; if none accepts, no value. *)
Fixpoint query_info (ds : list Descriptor) (f : SdpAudioFormat)
  : option AudioCodecInfo :=
  match ds with
  | [] => None
  | T :: Ts =>
      match SdpToConfig T f with
      | Some config => Some (QueryAudioEncoder T config)
      | None => query_info Ts f
      end
  end.

(** Modelled from the spec: create-encoder of the factory template (not part
    of the sources at hand).  Same selection; the selected descriptor's
    make-encoder gets the parsed config and the payload type. *)
Fixpoint create_encoder (ds : list Descriptor) (f : SdpAudioFormat)
         (payload_type : Z) : option AudioEncoder :=
  match ds with
  | [] => None
  | T :: Ts =>
      match SdpToConfig T f with
      | Some config => MakeAudioEncoder T config payload_type
      | None => create_encoder Ts f payload_type
      end
  end.

(** The position of the descriptor that the scan selects for [f]. *)
Fixpoint selected (ds : list Descriptor) (f : SdpAudioFormat) : option nat :=
  match ds with
  | [] => None
  | T :: Ts => if accepts T f then Some 0%nat else option_map S (selected Ts f)
  end.

(** All descriptors of [ds] reject [f]. *)
Definition all_reject (ds : list Descriptor) (f : SdpAudioFormat) : Prop :=
  Forall (fun T => SdpToConfig T f = None) ds.

(** [D], at position [i] of [ds], is the first descriptor in list order whose
    [SdpToConfig] returns a value for [f], and that value is [c]. *)
Definition first_accepting (ds : list Descriptor) (f : SdpAudioFormat)
           (i : nat) (D : Descriptor) (c : Config D) : Prop :=
  nth_error ds i = Some D /\
  SdpToConfig D f = Some c /\
  forall j E, (j < i)%nat -> nth_error ds j = Some E -> SdpToConfig E f = None.

(** *** The factory object *)

(** Modelled from the spec: the factory object (not part of the sources at
    hand) holds the descriptor list, fixed at construction. *)
Record AudioEncoderFactory : Type := mkFactory {
  descriptors : list Descriptor
}.

End Model.

Arguments Descriptor : clear implicits.
Arguments AudioEncoderFactory : clear implicits.

(** ** Builtin factory assembly *)

(** The four preprocessor flags that gate the optional codecs. *)
Record BuildFlags : Type := mkBuildFlags {
  WEBRTC_USE_BUILTIN_OPUS : bool;
  WEBRTC_USE_BUILTIN_ISAC : bool;
  WEBRTC_USE_BUILTIN_G722 : bool;
  WEBRTC_USE_BUILTIN_ILBC : bool
}.

(** The codec classes that the translation unit names. *)
Inductive CodecClass : Type :=
| AudioEncoderOpus
| AudioEncoderIsac
| AudioEncoderG722
| AudioEncoderIlbc
| AudioEncoderG711
| AudioEncoderL16.

(** A template argument of [CreateAudioEncoderFactory<...>]: a codec class,
    or [NotAdvertised<...>] around a template argument. *)
Inductive EncoderType : Type :=
| Class (c : CodecClass)
| NotAdvertisedT (T : EncoderType).

Coercion Class : CodecClass >-> EncoderType.

(** [#if FLAG ... #endif] around template arguments. *)
Definition when_flag (flag : bool) (args : list EncoderType)
  : list EncoderType :=
  if flag then args else [].

(** The template argument list of [CreateBuiltinAudioEncoderFactory]. *)
Definition CreateBuiltinAudioEncoderFactory_args (fl : BuildFlags)
  : list EncoderType :=
  when_flag (WEBRTC_USE_BUILTIN_OPUS fl) [Class AudioEncoderOpus] ++
  when_flag (WEBRTC_USE_BUILTIN_ISAC fl) [Class AudioEncoderIsac] ++
  when_flag (WEBRTC_USE_BUILTIN_G722 fl) [Class AudioEncoderG722] ++
  when_flag (WEBRTC_USE_BUILTIN_ILBC fl) [Class AudioEncoderIlbc] ++
  [Class AudioEncoderG711; NotAdvertisedT (Class AudioEncoderL16)].

(** Whether a template argument is a [NotAdvertised<...>]. *)
Definition is_not_advertised (T : EncoderType) : bool :=
  match T with
  | NotAdvertisedT _ => true
  | Class _ => false
  end.

(** The flag that gates a codec class; G711 and L16 have none. *)
Definition build_flag (fl : BuildFlags) (c : CodecClass) : bool :=
  match c with
  | AudioEncoderOpus => WEBRTC_USE_BUILTIN_OPUS fl
  | AudioEncoderIsac => WEBRTC_USE_BUILTIN_ISAC fl
  | AudioEncoderG722 => WEBRTC_USE_BUILTIN_G722 fl
  | AudioEncoderIlbc => WEBRTC_USE_BUILTIN_ILBC fl
  | AudioEncoderG711 => true
  | AudioEncoderL16 => true
  end.

(** The codec classes that are part of the build and listed undecorated, in
    the order of the template argument list. *)
Definition advertised_classes (fl : BuildFlags) : list CodecClass :=
  filter (build_flag fl)
    [AudioEncoderOpus; AudioEncoderIsac; AudioEncoderG722; AudioEncoderIlbc;
     AudioEncoderG711].

Section Assembly.

Context {AudioEncoder : Type}.

(** The codec classes themselves live in their own headers, which are not
    part of the sources at hand: they are a parameter of the assembly. *)
Variable impl : CodecClass -> Descriptor AudioEncoder.

(** The descriptor that a template argument denotes. *)
Fixpoint instantiate (T : EncoderType) : Descriptor AudioEncoder :=
  match T with
  | Class c => impl c
  | NotAdvertisedT T' => NotAdvertised (instantiate T')
  end.

(** [CreateBuiltinAudioEncoderFactory]: the factory template over the
    template argument list. *)
Definition CreateBuiltinAudioEncoderFactory (fl : BuildFlags)
  : AudioEncoderFactory AudioEncoder :=
  mkFactory (map instantiate (CreateBuiltinAudioEncoderFactory_args fl)).

End Assembly.

(** ** Sample descriptors

    Small descriptors on which the statements below are exercised.  Their
    encoder instances record the codec and the payload type they were made
    for. *)

Record SampleEncoder : Type := mkSampleEncoder {
  made_by : string;
  bound_payload_type : Z
}.

Definition fmt (n : string) (rate channels : Z) : SdpAudioFormat :=
  mkSdpAudioFormat n rate channels [].

Definition valid_payload_type (p : Z) : bool := (0 <=? p) && (p <=? 127).

(** A descriptor that accepts one name at any clock rate, keeps the clock rate
    as its config, lists [advertised] and reports [bitrate] as both ends of
    its bitrate range. *)
Definition sample_codec (tag n : string) (bitrate : Z)
           (advertised : list AudioCodecSpec) : Descriptor SampleEncoder :=
  {| Config := Z;
     SdpToConfig := fun f =>
       if String.eqb (name f) n then Some (clockrate_hz f) else None;
     AppendSupportedEncoders := fun specs => specs ++ advertised;
     QueryAudioEncoder := fun rate => mkAudioCodecInfo rate 1 bitrate bitrate;
     MakeAudioEncoder := fun _ p =>
       if valid_payload_type p then Some (mkSampleEncoder tag p) else None |}.

(** A descriptor whose config is the channel count, and which accepts its name
    for one or two channels only. *)
Definition sample_stereo_codec (tag n : string) (rate : Z)
           (advertised : list AudioCodecSpec) : Descriptor SampleEncoder :=
  {| Config := bool;
     SdpToConfig := fun f =>
       if String.eqb (name f) n
       then if num_channels f =? 1 then Some false
            else if num_channels f =? 2 then Some true else None
       else None;
     AppendSupportedEncoders := fun specs => specs ++ advertised;
     QueryAudioEncoder := fun stereo =>
       mkAudioCodecInfo rate (if stereo then 2 else 1) 6000 510000;
     MakeAudioEncoder := fun _ p =>
       if valid_payload_type p then Some (mkSampleEncoder tag p) else None |}.

Definition spec_of (n : string) (rate channels bitrate : Z) : AudioCodecSpec :=
  mkAudioCodecSpec (fmt n rate channels)
                   (mkAudioCodecInfo rate channels bitrate bitrate).

Definition sample_impl (c : CodecClass) : Descriptor SampleEncoder :=
  match c with
  | AudioEncoderOpus =>
      sample_stereo_codec "opus" "opus" 48000
        [mkAudioCodecSpec (fmt "opus" 48000 2)
                          (mkAudioCodecInfo 48000 2 6000 510000)]
  | AudioEncoderIsac =>
      sample_codec "isac" "ISAC" 32000
        [spec_of "ISAC" 16000 1 32000; spec_of "ISAC" 32000 1 32000]
  | AudioEncoderG722 =>
      sample_codec "g722" "G722" 64000 [spec_of "G722" 8000 1 64000]
  | AudioEncoderIlbc =>
      sample_codec "ilbc" "ILBC" 13300 [spec_of "ILBC" 8000 1 13300]
  | AudioEncoderG711 =>
      sample_codec "g711" "PCMU" 64000 [spec_of "PCMU" 8000 1 64000]
  | AudioEncoderL16 =>
      sample_codec "l16" "L16" 128000 [spec_of "L16" 8000 1 128000]
  end.

(** A build without Opus. *)
Definition sample_flags : BuildFlags := mkBuildFlags false true true true.

(** Two descriptors that both accept the name "X" and report different
    capabilities, and both advertise the same spec. *)
Definition sample_x_low : Descriptor SampleEncoder :=
  sample_codec "x-low" "X" 8000 [spec_of "X" 8000 1 8000].

Definition sample_x_high : Descriptor SampleEncoder :=
  sample_codec "x-high" "X" 16000 [spec_of "X" 8000 1 8000].

(** ** Notions for comparing builds *)

Definition CodecClass_eqb (a b : CodecClass) : bool :=
  match a, b with
  | AudioEncoderOpus, AudioEncoderOpus
  | AudioEncoderIsac, AudioEncoderIsac
  | AudioEncoderG722, AudioEncoderG722
  | AudioEncoderIlbc, AudioEncoderIlbc
  | AudioEncoderG711, AudioEncoderG711
  | AudioEncoderL16, AudioEncoderL16 => true
  | _, _ => false
  end.

Fixpoint EncoderType_eqb (a b : EncoderType) : bool :=
  match a, b with
  | Class c, Class d => CodecClass_eqb c d
  | NotAdvertisedT a', NotAdvertisedT b' => EncoderType_eqb a' b'
  | _, _ => false
  end.

(** Whether the class [c] is among the template arguments, undecorated. *)
Definition lists_class (args : list EncoderType) (c : CodecClass) : bool :=
  existsb (EncoderType_eqb (Class c)) args.

(** The flags as they can be read back from a template argument list. *)
Definition flags_of_args (args : list EncoderType) : BuildFlags :=
  mkBuildFlags (lists_class args AudioEncoderOpus)
               (lists_class args AudioEncoderIsac)
               (lists_class args AudioEncoderG722)
               (lists_class args AudioEncoderIlbc).

(** The number of flags that are on. *)
Definition enabled_count (fl : BuildFlags) : nat :=
  (Nat.b2n (WEBRTC_USE_BUILTIN_OPUS fl) + Nat.b2n (WEBRTC_USE_BUILTIN_ISAC fl) +
   Nat.b2n (WEBRTC_USE_BUILTIN_G722 fl) + Nat.b2n (WEBRTC_USE_BUILTIN_ILBC fl))%nat.

(** Every flag that is on in [fl] is on in [fl']. *)
Definition flags_le (fl fl' : BuildFlags) : Prop :=
  forall c, build_flag fl c = true -> build_flag fl' c = true.

(** [xs] is [ys] with some entries left out, the others in the same order. *)
Inductive Subseq {A : Type} : list A -> list A -> Prop :=
| Subseq_nil : Subseq [] []
| Subseq_keep x xs ys : Subseq xs ys -> Subseq (x :: xs) (x :: ys)
| Subseq_skip y xs ys : Subseq xs ys -> Subseq xs (y :: ys).

(** The place of a codec class in the template argument list when every flag
    is on. *)
Definition class_rank (c : CodecClass) : nat :=
  match c with
  | AudioEncoderOpus => 0
  | AudioEncoderIsac => 1
  | AudioEncoderG722 => 2
  | AudioEncoderIlbc => 3
  | AudioEncoderG711 => 4
  | AudioEncoderL16 => 5
  end.

(** ** The dispatch scan *)

Section Dispatch.

Context {AudioEncoder : Type}.
Implicit Types (T D : Descriptor AudioEncoder).
Implicit Types (ds pre post : list (Descriptor AudioEncoder)).
Implicit Types (f : SdpAudioFormat) (p : Z).

Lemma accepts_true T f :
  accepts T f = true <-> exists c, SdpToConfig T f = Some c.
Proof.
  unfold accepts. destruct (SdpToConfig T f) as [c|].
  - split; [eauto | reflexivity].
  - split; [discriminate | intros [c Hc]; discriminate].
Qed.

Lemma accepts_false T f : accepts T f = false <-> SdpToConfig T f = None.
Proof.
  unfold accepts. destruct (SdpToConfig T f); split; congruence.
Qed.

(** A rejecting prefix is skipped by all three scans. *)
Lemma query_info_skip pre ds f :
  all_reject pre f -> query_info (pre ++ ds) f = query_info ds f.
Proof.
  induction 1 as [|T pre HT _ IH]; simpl; [reflexivity|].
  rewrite HT. exact IH.
Qed.

Lemma create_encoder_skip pre ds f p :
  all_reject pre f -> create_encoder (pre ++ ds) f p = create_encoder ds f p.
Proof.
  induction 1 as [|T pre HT _ IH]; simpl; [reflexivity|].
  rewrite HT. exact IH.
Qed.

Lemma selected_skip pre ds f :
  all_reject pre f ->
  selected (pre ++ ds) f =
  option_map (fun i => (List.length pre + i)%nat) (selected ds f).
Proof.
  induction 1 as [|T pre HT _ IH]; simpl.
  - destruct (selected ds f); reflexivity.
  - apply accepts_false in HT. rewrite HT, IH.
    destruct (selected ds f); reflexivity.
Qed.

(** The descriptor at position [i] with only rejecting ones before it
    splits the list into a rejecting prefix, itself and the rest. *)
Lemma first_accepting_split ds f i D :
  nth_error ds i = Some D ->
  (forall j E, (j < i)%nat -> nth_error ds j = Some E ->
               SdpToConfig E f = None) ->
  exists pre post,
    ds = pre ++ D :: post /\ List.length pre = i /\ all_reject pre f.
Proof.
  revert ds. induction i as [|i IH]; intros [|T ds] Hnth Hbefore;
    try discriminate.
  - injection Hnth as ->. exists [], ds. repeat split. constructor.
  - simpl in Hnth.
    destruct (IH ds Hnth) as (pre & post & -> & Hlen & Hrej).
    + intros j E Hj HE. apply (Hbefore (S j) E); [lia | exact HE].
    + exists (T :: pre), post. repeat split.
      * simpl. now rewrite Hlen.
      * constructor; [|exact Hrej].
        apply (Hbefore 0%nat T); [lia | reflexivity].
Qed.

(** What the scans return at the first accepting descriptor. *)
Lemma scans_at_first_accepting pre D post f c :
  all_reject pre f -> SdpToConfig D f = Some c ->
  query_info (pre ++ D :: post) f = Some (QueryAudioEncoder D c) /\
  (forall p, create_encoder (pre ++ D :: post) f p = MakeAudioEncoder D c p) /\
  selected (pre ++ D :: post) f = Some (List.length pre).
Proof.
  intros Hrej Hc. repeat split.
  - rewrite query_info_skip by exact Hrej. simpl. now rewrite Hc.
  - intros p. rewrite create_encoder_skip by exact Hrej. simpl.
    now rewrite Hc.
  - rewrite selected_skip by exact Hrej. simpl.
    unfold accepts. rewrite Hc. simpl. f_equal. lia.
Qed.

(** Either every descriptor rejects, or the list splits at the first
    accepting one. *)
Lemma scan_cases ds f :
  all_reject ds f \/
  exists pre D post c,
    ds = pre ++ D :: post /\ all_reject pre f /\ SdpToConfig D f = Some c.
Proof.
  induction ds as [|T ds IH].
  - left. constructor.
  - destruct (SdpToConfig T f) as [c|] eqn:HT.
    + right. exists [], T, ds, c. repeat split; [constructor | exact HT].
    + destruct IH as [Hall | (pre & D & post & c & -> & Hrej & Hc)].
      * left. constructor; assumption.
      * right. exists (T :: pre), D, post, c. repeat split.
        -- constructor; assumption.
        -- exact Hc.
Qed.

Lemma query_info_all_reject ds f :
  all_reject ds f -> query_info ds f = None.
Proof.
  intros H. rewrite <- (app_nil_r ds). now rewrite query_info_skip.
Qed.

Lemma create_encoder_all_reject ds f p :
  all_reject ds f -> create_encoder ds f p = None.
Proof.
  intros H. rewrite <- (app_nil_r ds). now rewrite create_encoder_skip.
Qed.

(** ** The vector of advertised specs *)

Lemma append_all_app ds1 ds2 specs :
  append_all (ds1 ++ ds2) specs = append_all ds2 (append_all ds1 specs).
Proof.
  revert specs. induction ds1 as [|T ds1 IH]; intros specs; simpl;
    [reflexivity | apply IH].
Qed.

Lemma append_all_concat ds specs :
  Forall appends_only ds ->
  append_all ds specs = specs ++ List.concat (map list_supported_specs ds).
Proof.
  intros H. revert specs.
  induction H as [|T ds HT _ IH]; intros specs; simpl.
  - now rewrite app_nil_r.
  - rewrite IH, HT, <- app_assoc. reflexivity.
Qed.

Lemma NotAdvertised_appends_only T : appends_only (NotAdvertised T).
Proof. intros specs. unfold list_supported_specs. simpl. now rewrite app_nil_r. Qed.

Lemma first_accepting_of_split pre D post f c :
  all_reject pre f -> SdpToConfig D f = Some c ->
  first_accepting (pre ++ D :: post) f (List.length pre) D c.
Proof.
  intros Hrej Hc. repeat split.
  - rewrite nth_error_app2 by lia. now rewrite Nat.sub_diag.
  - exact Hc.
  - intros j E Hj HE. rewrite nth_error_app1 in HE by exact Hj.
    unfold all_reject in Hrej. rewrite Forall_forall in Hrej.
    apply Hrej. eapply nth_error_In. exact HE.
Qed.

Lemma first_accepting_scans ds f i D c :
  first_accepting ds f i D c ->
  query_info ds f = Some (QueryAudioEncoder D c) /\
  (forall p, create_encoder ds f p = MakeAudioEncoder D c p) /\
  selected ds f = Some i.
Proof.
  intros (Hnth & Hc & Hbefore).
  destruct (first_accepting_split ds f i D Hnth Hbefore)
    as (pre & post & -> & <- & Hrej).
  now apply scans_at_first_accepting.
Qed.

Lemma first_accepting_cases ds f :
  all_reject ds f \/ exists i D c, first_accepting ds f i D c.
Proof.
  destruct (scan_cases ds f) as [H | (pre & D & post & c & -> & Hrej & Hc)].
  - now left.
  - right. exists (List.length pre), D, c.
    now apply first_accepting_of_split.
Qed.

Lemma all_reject_In ds f :
  all_reject ds f <-> forall D, In D ds -> SdpToConfig D f = None.
Proof. unfold all_reject. apply Forall_forall. Qed.

End Dispatch.

(** ** Properties of the factory template *)

(** C1: query-info of the factory returns the query-info result of the first
    descriptor (smallest position) whose parse-format returns a value, applied
    to the parsed config.  In particular, when two descriptors both accept a
    format and report different capabilities, the one that comes first in the
    list decides the answer, whichever of the two that is. *)
Theorem query_info_first_match_wins (AudioEncoder : Type) (f : SdpAudioFormat) :
  (forall (ds : list (Descriptor AudioEncoder)) i D c,
      first_accepting ds f i D c ->
      query_info ds f = Some (QueryAudioEncoder D c)) /\
  (forall (D1 D2 : Descriptor AudioEncoder) c1 c2,
      SdpToConfig D1 f = Some c1 ->
      SdpToConfig D2 f = Some c2 ->
      QueryAudioEncoder D1 c1 <> QueryAudioEncoder D2 c2 ->
      query_info [D1; D2] f = Some (QueryAudioEncoder D1 c1) /\
      query_info [D2; D1] f = Some (QueryAudioEncoder D2 c2) /\
      query_info [D1; D2] f <> query_info [D2; D1] f).
Proof.
  split.
  - intros ds i D c H. now apply first_accepting_scans in H.
  - intros D1 D2 c1 c2 H1 H2 Hne. simpl. rewrite H1, H2.
    repeat split. congruence.
Qed.

Lemma query_info_first_match_wins_witness :
  first_accepting [sample_impl AudioEncoderG722; sample_x_low; sample_x_high]
                  (fmt "X" 8000 1) 1 sample_x_low 8000 /\
  query_info [sample_impl AudioEncoderG722; sample_x_low; sample_x_high]
             (fmt "X" 8000 1)
  = Some (mkAudioCodecInfo 8000 1 8000 8000) /\
  query_info [sample_x_low; sample_x_high] (fmt "X" 8000 1)
  = Some (mkAudioCodecInfo 8000 1 8000 8000) /\
  query_info [sample_x_high; sample_x_low] (fmt "X" 8000 1)
  = Some (mkAudioCodecInfo 8000 1 16000 16000).
Proof.
  assert (Hfirst :
    first_accepting [sample_impl AudioEncoderG722; sample_x_low; sample_x_high]
                    (fmt "X" 8000 1) 1 sample_x_low 8000).
  { repeat split.
    intros [|j] E Hj HE; [|lia]. injection HE as <-. reflexivity. }
  destruct (query_info_first_match_wins SampleEncoder (fmt "X" 8000 1))
    as [Hgen Hswap].
  split; [exact Hfirst|]. split.
  - exact (Hgen _ 1%nat sample_x_low 8000 Hfirst).
  - destruct (Hswap sample_x_low sample_x_high 8000 8000) as (H1 & H2 & _).
    + reflexivity.
    + reflexivity.
    + simpl. discriminate.
    + split; [exact H1 | exact H2].
Defined.

(** C3: query-info of the factory returns no value if and only if the
    parse-format of every descriptor of the list returns no value. *)
Theorem query_info_rejects_iff_all_reject
        (AudioEncoder : Type) (ds : list (Descriptor AudioEncoder))
        (f : SdpAudioFormat) :
  query_info ds f = None <->
  (forall D, In D ds -> SdpToConfig D f = None).
Proof.
  rewrite <- all_reject_In. split.
  - intros Hnone.
    destruct (first_accepting_cases ds f) as [H | (i & D & c & H)];
      [exact H|].
    apply first_accepting_scans in H. destruct H as [Hq _]. congruence.
  - apply query_info_all_reject.
Qed.

Lemma query_info_rejects_iff_all_reject_witness :
  query_info (map sample_impl [AudioEncoderOpus; AudioEncoderG711])
             (fmt "unknown-codec" 8000 1) = None.
Proof.
  apply (query_info_rejects_iff_all_reject SampleEncoder).
  intros D [<- | [<- | []]]; reflexivity.
Defined.

(** C5: create-encoder selects the first descriptor in list order whose
    parse-format succeeds and calls its make-encoder with the parsed config
    and the payload type.  It returns no instance exactly when no descriptor
    accepts the format or the selected descriptor's make-encoder fails, and in
    the second case query-info of the same format still returns a value. *)
Theorem create_encoder_first_match
        (AudioEncoder : Type) (ds : list (Descriptor AudioEncoder))
        (f : SdpAudioFormat) (p : Z) :
  (forall i D c,
      first_accepting ds f i D c ->
      create_encoder ds f p = MakeAudioEncoder D c p) /\
  (create_encoder ds f p = None <->
   (forall D, In D ds -> SdpToConfig D f = None) \/
   (exists i D c,
       first_accepting ds f i D c /\ MakeAudioEncoder D c p = None)) /\
  (forall i D c,
      first_accepting ds f i D c ->
      MakeAudioEncoder D c p = None ->
      create_encoder ds f p = None /\
      query_info ds f = Some (QueryAudioEncoder D c)).
Proof.
  split; [|split].
  - intros i D c H. apply first_accepting_scans in H. apply H.
  - rewrite <- all_reject_In. split.
    + intros Hnone.
      destruct (first_accepting_cases ds f) as [H | (i & D & c & H)];
        [now left|].
      right. exists i, D, c. split; [exact H|].
      apply first_accepting_scans in H. destruct H as (_ & Hc & _).
      now rewrite <- Hc.
    + intros [H | (i & D & c & H & Hmake)].
      * now apply create_encoder_all_reject.
      * apply first_accepting_scans in H. destruct H as (_ & Hc & _).
        now rewrite Hc.
  - intros i D c H Hmake.
    apply first_accepting_scans in H. destruct H as (Hq & Hc & _).
    split; [now rewrite Hc | exact Hq].
Qed.

Lemma create_encoder_first_match_witness :
  create_encoder [sample_impl AudioEncoderG722; sample_x_low; sample_x_high]
                 (fmt "X" 8000 1) 100
  = Some (mkSampleEncoder "x-low" 100) /\
  create_encoder [sample_impl AudioEncoderG722; sample_x_low; sample_x_high]
                 (fmt "X" 8000 1) 128 = None /\
  query_info [sample_impl AudioEncoderG722; sample_x_low; sample_x_high]
             (fmt "X" 8000 1)
  = Some (mkAudioCodecInfo 8000 1 8000 8000).
Proof.
  assert (Hfirst :
    first_accepting [sample_impl AudioEncoderG722; sample_x_low; sample_x_high]
                    (fmt "X" 8000 1) 1 sample_x_low 8000).
  { repeat split.
    intros [|j] E Hj HE; [|lia]. injection HE as <-. reflexivity. }
  split.
  - destruct (create_encoder_first_match SampleEncoder
                [sample_impl AudioEncoderG722; sample_x_low; sample_x_high]
                (fmt "X" 8000 1) 100) as (H & _ & _).
    exact (H 1%nat sample_x_low 8000 Hfirst).
  - destruct (create_encoder_first_match SampleEncoder
                [sample_impl AudioEncoderG722; sample_x_low; sample_x_high]
                (fmt "X" 8000 1) 128) as (_ & _ & H).
    exact (H 1%nat sample_x_low 8000 Hfirst eq_refl).
Defined.

(** C4: get-supported-formats is the concatenation, in list order, of what
    each descriptor lists; nothing is removed, so a spec that two descriptors
    both list appears once for each of them.  The descriptors are taken to
    follow the listing contract: each appends its list to the vector. *)
Theorem get_supported_formats_concat
        (AudioEncoder : Type) (ds : list (Descriptor AudioEncoder))
        (Hcontract : Forall appends_only ds) :
  get_supported_formats ds = List.concat (map list_supported_specs ds) /\
  List.length (get_supported_formats ds)
  = list_sum (map (fun D => List.length (list_supported_specs D)) ds) /\
  (forall pre D1 mid D2 post s,
      ds = pre ++ D1 :: mid ++ D2 :: post ->
      In s (list_supported_specs D1) ->
      In s (list_supported_specs D2) ->
      exists l1 l2 l3, get_supported_formats ds = l1 ++ s :: l2 ++ s :: l3).
Proof.
  assert (Heq : get_supported_formats ds
                = List.concat (map list_supported_specs ds)).
  { unfold get_supported_formats. now rewrite append_all_concat. }
  split; [exact Heq|]. split.
  - rewrite Heq. clear. induction ds as [|D ds IH]; simpl; [reflexivity|].
    now rewrite length_app, IH.
  - intros pre D1 mid D2 post s -> Hs1 Hs2. rewrite Heq.
    apply in_split in Hs1. destruct Hs1 as (x1 & y1 & E1).
    apply in_split in Hs2. destruct Hs2 as (x2 & y2 & E2).
    rewrite map_app, concat_app. simpl.
    rewrite map_app, concat_app. simpl. rewrite E1, E2.
    exists (List.concat (map list_supported_specs pre) ++ x1),
           (y1 ++ List.concat (map list_supported_specs mid) ++ x2),
           (y2 ++ List.concat (map list_supported_specs post)).
    repeat (rewrite <- app_assoc; simpl). reflexivity.
Qed.

Lemma get_supported_formats_concat_witness :
  get_supported_formats [sample_x_low; sample_impl AudioEncoderG722;
                         sample_x_high]
  = [spec_of "X" 8000 1 8000; spec_of "G722" 8000 1 64000;
     spec_of "X" 8000 1 8000].
Proof.
  refine (eq_trans (proj1 (get_supported_formats_concat SampleEncoder
    [sample_x_low; sample_impl AudioEncoderG722; sample_x_high] _)) _).
  - repeat constructor; intros specs; reflexivity.
  - reflexivity.
Defined.

(** ** Properties of the decorator *)

(** C7: [NotAdvertised<T>] has the [Config] type of [T], and its
    [SdpToConfig], [QueryAudioEncoder] and [MakeAudioEncoder] return exactly
    what those of [T] return on the same arguments. *)
Theorem NotAdvertised_forwards
        (AudioEncoder : Type) (T : Descriptor AudioEncoder) :
  Config (NotAdvertised T) = Config T /\
  SdpToConfig (NotAdvertised T) = SdpToConfig T /\
  QueryAudioEncoder (NotAdvertised T) = QueryAudioEncoder T /\
  MakeAudioEncoder (NotAdvertised T) = MakeAudioEncoder T /\
  (forall audio_format,
      SdpToConfig (NotAdvertised T) audio_format = SdpToConfig T audio_format) /\
  (forall config,
      QueryAudioEncoder (NotAdvertised T) config = QueryAudioEncoder T config) /\
  (forall config payload_type,
      MakeAudioEncoder (NotAdvertised T) config payload_type
      = MakeAudioEncoder T config payload_type).
Proof.
  repeat split.
Qed.

(** C9: [NotAdvertised<T>::AppendSupportedEncoders] leaves the vector it is
    given exactly as it was: nothing is appended, removed or changed, so what
    earlier descriptors put there stays. *)
Theorem NotAdvertised_AppendSupportedEncoders_frame
        (AudioEncoder : Type) (T : Descriptor AudioEncoder)
        (specs : list AudioCodecSpec) :
  AppendSupportedEncoders (NotAdvertised T) specs = specs /\
  List.length (AppendSupportedEncoders (NotAdvertised T) specs)
  = List.length specs /\
  (forall i, nth_error (AppendSupportedEncoders (NotAdvertised T) specs) i
             = nth_error specs i).
Proof.
  repeat split.
Qed.

(** Swapping a descriptor for its decorated form changes neither scan. *)
Lemma decorated_scans_agree
      (AudioEncoder : Type) (D : Descriptor AudioEncoder) ds1 ds2 f :
  query_info (ds1 ++ NotAdvertised D :: ds2) f
  = query_info (ds1 ++ D :: ds2) f /\
  (forall p, create_encoder (ds1 ++ NotAdvertised D :: ds2) f p
             = create_encoder (ds1 ++ D :: ds2) f p).
Proof.
  induction ds1 as [|E ds1 [IHq IHc]]; simpl.
  - split; reflexivity.
  - destruct (SdpToConfig E f); split; auto.
Qed.

(** The decorated descriptor adds nothing to the advertised vector. *)
Lemma decorated_adds_nothing
      (AudioEncoder : Type) (D : Descriptor AudioEncoder) ds1 ds2 :
  get_supported_formats (ds1 ++ NotAdvertised D :: ds2)
  = get_supported_formats (ds1 ++ ds2).
Proof.
  unfold get_supported_formats. now rewrite !append_all_app.
Qed.

(** C2, as stated, fails when another descriptor of the list advertises a
    spec that the decorated descriptor would have listed: with
    [sample_x_low] before the decorated [sample_x_high], the spec that both
    list is in get-supported-formats. *)
Lemma decorated_specs_absent_counterexample :
  ~ (forall (ds1 ds2 : list (Descriptor SampleEncoder)) D s,
        In s (list_supported_specs D) ->
        ~ In s (get_supported_formats (ds1 ++ NotAdvertised D :: ds2))).
Proof.
  intros H.
  apply (H [sample_x_low] [] sample_x_high (spec_of "X" 8000 1 8000));
    left; reflexivity.
Qed.

(** C2 (amended): the decorator lists nothing whatever the wrapped descriptor
    lists; a factory with the decorated descriptor advertises what the same
    factory without it advertises, so a spec of the wrapped descriptor is
    advertised only if another descriptor of the list lists it; and
    create-encoder gives, for every format and payload type, what the factory
    with the undecorated descriptor in the same place gives. *)
Theorem NotAdvertised_suppresses_advertisement
        (AudioEncoder : Type) (D : Descriptor AudioEncoder) :
  list_supported_specs (NotAdvertised D) = [] /\
  (forall ds1 ds2,
      get_supported_formats (ds1 ++ NotAdvertised D :: ds2)
      = get_supported_formats (ds1 ++ ds2)) /\
  (forall ds1 ds2 s,
      Forall appends_only (ds1 ++ ds2) ->
      In s (get_supported_formats (ds1 ++ NotAdvertised D :: ds2)) ->
      exists E, In E (ds1 ++ ds2) /\ In s (list_supported_specs E)) /\
  (forall ds1 ds2 f p,
      create_encoder (ds1 ++ NotAdvertised D :: ds2) f p
      = create_encoder (ds1 ++ D :: ds2) f p) /\
  (forall ds1 ds2 f p c,
      all_reject ds1 f -> SdpToConfig D f = Some c ->
      create_encoder (ds1 ++ NotAdvertised D :: ds2) f p
      = MakeAudioEncoder D c p).
Proof.
  split; [reflexivity|]. split; [|split; [|split]].
  - intros ds1 ds2. apply decorated_adds_nothing.
  - intros ds1 ds2 s Hcontract Hin.
    rewrite decorated_adds_nothing in Hin.
    unfold get_supported_formats in Hin.
    rewrite append_all_concat in Hin by exact Hcontract. simpl in Hin.
    apply in_concat in Hin. destruct Hin as (l & Hl & Hs).
    apply in_map_iff in Hl. destruct Hl as (E & <- & HE).
    exists E. split; assumption.
  - intros ds1 ds2 f p. apply decorated_scans_agree.
  - intros ds1 ds2 f p c Hrej Hc.
    apply (scans_at_first_accepting ds1 (NotAdvertised D) ds2 f c Hrej Hc).
Qed.

Lemma NotAdvertised_suppresses_advertisement_witness :
  get_supported_formats
    [sample_impl AudioEncoderG711; NotAdvertised (sample_impl AudioEncoderL16)]
  = [spec_of "PCMU" 8000 1 64000] /\
  (In (spec_of "PCMU" 8000 1 64000)
      (get_supported_formats
         [sample_impl AudioEncoderG711;
          NotAdvertised (sample_impl AudioEncoderL16)]) ->
   exists E, In E [sample_impl AudioEncoderG711] /\
             In (spec_of "PCMU" 8000 1 64000) (list_supported_specs E)) /\
  create_encoder
    [sample_impl AudioEncoderG711; NotAdvertised (sample_impl AudioEncoderL16)]
    (fmt "L16" 8000 1) 100
  = Some (mkSampleEncoder "l16" 100).
Proof.
  destruct (NotAdvertised_suppresses_advertisement
              SampleEncoder (sample_impl AudioEncoderL16))
    as (_ & Hsame & Honly & _ & Hmake).
  split; [|split].
  - exact (Hsame [sample_impl AudioEncoderG711] []).
  - apply (Honly [sample_impl AudioEncoderG711] []).
    constructor; [intros specs; reflexivity | constructor].
  - apply (Hmake [sample_impl AudioEncoderG711] [] (fmt "L16" 8000 1) 100 8000).
    + repeat constructor.
    + reflexivity.
Defined.

(** ** Properties of the builtin assembly *)

(** The template argument list is the undecorated classes of the build, in
    order, and then the decorated L16. *)
Lemma CreateBuiltinAudioEncoderFactory_args_shape (fl : BuildFlags) :
  CreateBuiltinAudioEncoderFactory_args fl
  = map Class (advertised_classes fl) ++
    [NotAdvertisedT (Class AudioEncoderL16)].
Proof.
  destruct fl as [[] [] [] []]; reflexivity.
Qed.

Lemma CreateBuiltinAudioEncoderFactory_descriptors
      (AudioEncoder : Type) (impl : CodecClass -> Descriptor AudioEncoder)
      (fl : BuildFlags) :
  descriptors (CreateBuiltinAudioEncoderFactory impl fl)
  = map impl (advertised_classes fl) ++
    [NotAdvertised (impl AudioEncoderL16)].
Proof.
  unfold CreateBuiltinAudioEncoderFactory. simpl.
  rewrite CreateBuiltinAudioEncoderFactory_args_shape, map_app, map_map.
  reflexivity.
Qed.

Lemma advertised_classes_In (fl : BuildFlags) (c : CodecClass) :
  In c (advertised_classes fl) <->
  build_flag fl c = true /\ c <> AudioEncoderL16.
Proof.
  unfold advertised_classes. rewrite filter_In. simpl. split.
  - intros [Hc Hfl]. split; [exact Hfl|].
    intros ->. intuition discriminate.
  - intros [Hfl Hne]. split; [|exact Hfl].
    destruct c; auto 6. now elim Hne.
Qed.

(** C10: whatever the build flags, the template argument list ends with
    [AudioEncoderG711] and then [NotAdvertised<AudioEncoderL16>]; no flag
    gates either of them, and what comes before them is exactly the optional
    codecs whose flag is on. *)
Theorem builtin_list_ends_with_G711_then_L16 (fl : BuildFlags) :
  exists pre,
    CreateBuiltinAudioEncoderFactory_args fl
    = pre ++ [Class AudioEncoderG711; NotAdvertisedT (Class AudioEncoderL16)] /\
    (In (Class AudioEncoderOpus) pre <-> WEBRTC_USE_BUILTIN_OPUS fl = true) /\
    (In (Class AudioEncoderIsac) pre <-> WEBRTC_USE_BUILTIN_ISAC fl = true) /\
    (In (Class AudioEncoderG722) pre <-> WEBRTC_USE_BUILTIN_G722 fl = true) /\
    (In (Class AudioEncoderIlbc) pre <-> WEBRTC_USE_BUILTIN_ILBC fl = true) /\
    (forall T, In T pre ->
               T = Class AudioEncoderOpus \/ T = Class AudioEncoderIsac \/
               T = Class AudioEncoderG722 \/ T = Class AudioEncoderIlbc) /\
    ~ In (Class AudioEncoderG711) pre /\
    ~ In (NotAdvertisedT (Class AudioEncoderL16)) pre.
Proof.
  exists (when_flag (WEBRTC_USE_BUILTIN_OPUS fl) [Class AudioEncoderOpus] ++
          when_flag (WEBRTC_USE_BUILTIN_ISAC fl) [Class AudioEncoderIsac] ++
          when_flag (WEBRTC_USE_BUILTIN_G722 fl) [Class AudioEncoderG722] ++
          when_flag (WEBRTC_USE_BUILTIN_ILBC fl) [Class AudioEncoderIlbc]).
  split.
  - unfold CreateBuiltinAudioEncoderFactory_args.
    now rewrite <- !app_assoc.
  - destruct fl as [[] [] [] []]; simpl;
      repeat split; intros; intuition (discriminate || congruence).
Qed.

Lemma builtin_get_supported_formats
      (AudioEncoder : Type) (impl : CodecClass -> Descriptor AudioEncoder)
      (fl : BuildFlags) :
  (forall c, appends_only (impl c)) ->
  get_supported_formats (descriptors (CreateBuiltinAudioEncoderFactory impl fl))
  = List.concat (map (fun c => list_supported_specs (impl c))
                     (advertised_classes fl)).
Proof.
  intros Happend.
  rewrite CreateBuiltinAudioEncoderFactory_descriptors.
  unfold get_supported_formats. rewrite append_all_app. simpl.
  rewrite append_all_concat, map_map; [reflexivity|].
  apply Forall_forall. intros D HD.
  apply in_map_iff in HD. destruct HD as (c & <- & _). apply Happend.
Qed.

(** C6: the builtin assembly.  Each optional codec is in the list exactly when
    its build flag is on; exactly one entry, L16, is wrapped in
    [NotAdvertised], so that it contributes nothing to get-supported-formats
    while create-encoder still reaches it; and for a codec whose flag is off,
    a format that no other codec accepts is in none of the advertised specs
    and create-encoder returns no instance for it.  The codec classes are
    taken to follow the capability contract: each appends its list and lists
    only formats that it accepts itself. *)
Theorem builtin_assembly_flag_gated
        (AudioEncoder : Type) (impl : CodecClass -> Descriptor AudioEncoder)
        (fl : BuildFlags)
        (Happend : forall c, appends_only (impl c))
        (Hown : forall c, advertises_own_formats (impl c)) :
  let args := CreateBuiltinAudioEncoderFactory_args fl in
  let ds := descriptors (CreateBuiltinAudioEncoderFactory impl fl) in
  (In (Class AudioEncoderOpus) args <-> WEBRTC_USE_BUILTIN_OPUS fl = true) /\
  (In (Class AudioEncoderIsac) args <-> WEBRTC_USE_BUILTIN_ISAC fl = true) /\
  (In (Class AudioEncoderG722) args <-> WEBRTC_USE_BUILTIN_G722 fl = true) /\
  (In (Class AudioEncoderIlbc) args <-> WEBRTC_USE_BUILTIN_ILBC fl = true) /\
  filter is_not_advertised args = [NotAdvertisedT (Class AudioEncoderL16)] /\
  ~ In (Class AudioEncoderL16) args /\
  get_supported_formats ds
  = List.concat (map (fun c => list_supported_specs (impl c))
                     (advertised_classes fl)) /\
  (forall f c p,
      SdpToConfig (impl AudioEncoderL16) f = Some c ->
      (forall c', In c' (advertised_classes fl) ->
                  SdpToConfig (impl c') f = None) ->
      create_encoder ds f p = MakeAudioEncoder (impl AudioEncoderL16) c p) /\
  (forall c f,
      build_flag fl c = false ->
      (forall c', c' <> c -> SdpToConfig (impl c') f = None) ->
      (forall s, In s (get_supported_formats ds) -> format s <> f) /\
      (forall p, create_encoder ds f p = None)).
Proof.
  intros args ds.
  assert (Hspecs := builtin_get_supported_formats AudioEncoder impl fl Happend).
  assert (Hds := CreateBuiltinAudioEncoderFactory_descriptors
                   AudioEncoder impl fl).
  fold ds in Hspecs, Hds.
  split; [|split; [|split; [|split; [|split; [|split]]]]];
    try (subst args; destruct fl as [[] [] [] []]; simpl;
         intuition (discriminate || congruence)).
  split; [exact Hspecs|]. split.
  - intros f c p Hc Hrej. rewrite Hds.
    apply (scans_at_first_accepting
             (map impl (advertised_classes fl))
             (NotAdvertised (impl AudioEncoderL16)) [] f c); [|exact Hc].
    apply Forall_forall. intros D HD.
    apply in_map_iff in HD. destruct HD as (c' & <- & Hc'). now apply Hrej.
  - intros c f Hoff Honly. split.
    + intros s Hs Hf. rewrite Hspecs in Hs.
      apply in_concat in Hs. destruct Hs as (l & Hl & Hs).
      apply in_map_iff in Hl. destruct Hl as (c' & <- & Hc').
      apply advertised_classes_In in Hc'. destruct Hc' as [Hon _].
      assert (Hne : c' <> c) by (intros ->; congruence).
      specialize (Hown c'). unfold advertises_own_formats in Hown.
      rewrite Forall_forall in Hown. specialize (Hown s Hs).
      rewrite Hf in Hown. apply accepts_true in Hown.
      destruct Hown as [cfg Hcfg]. rewrite (Honly c' Hne) in Hcfg.
      discriminate.
    + intros p. apply create_encoder_all_reject. rewrite Hds.
      apply Forall_app. split.
      * apply Forall_forall. intros D HD.
        apply in_map_iff in HD. destruct HD as (c' & <- & Hc').
        apply advertised_classes_In in Hc'. destruct Hc' as [Hon _].
        apply Honly. intros ->; congruence.
      * constructor; [|constructor]. simpl.
        apply Honly. intros <-. discriminate.
Qed.

Lemma sample_impl_appends_only c : appends_only (sample_impl c).
Proof. destruct c; intros specs; reflexivity. Qed.

Lemma sample_impl_advertises_own_formats c :
  advertises_own_formats (sample_impl c).
Proof. destruct c; repeat constructor. Qed.

Lemma builtin_assembly_flag_gated_witness :
  map (fun s => name (format s))
      (get_supported_formats
         (descriptors (CreateBuiltinAudioEncoderFactory sample_impl
                                                        sample_flags)))
  = ["ISAC"; "ISAC"; "G722"; "ILBC"; "PCMU"]%string /\
  create_encoder
    (descriptors (CreateBuiltinAudioEncoderFactory sample_impl sample_flags))
    (fmt "L16" 8000 1) 100
  = Some (mkSampleEncoder "l16" 100) /\
  create_encoder
    (descriptors (CreateBuiltinAudioEncoderFactory sample_impl sample_flags))
    (fmt "opus" 48000 2) 100
  = None.
Proof.
  destruct (builtin_assembly_flag_gated SampleEncoder sample_impl sample_flags
              sample_impl_appends_only sample_impl_advertises_own_formats)
    as (_ & _ & _ & _ & _ & _ & Hspecs & Hl16 & Hoff).
  split; [|split].
  - rewrite Hspecs. reflexivity.
  - apply (Hl16 (fmt "L16" 8000 1) 8000 100); [reflexivity|].
    intros c' Hc'. simpl in Hc'.
    destruct Hc' as [<- | [<- | [<- | [<- | []]]]]; reflexivity.
  - apply (Hoff AudioEncoderOpus (fmt "opus" 48000 2)); [reflexivity|].
    intros c' Hne. destruct c'; try reflexivity. now elim Hne.
Defined.

(** ** Further properties of the decorator and of the argument list *)

(** X2: the template argument list has two entries more than there are flags
    switched on, hence at least two and at most six. *)
Theorem builtin_args_length (fl : BuildFlags) :
  List.length (CreateBuiltinAudioEncoderFactory_args fl)
  = (2 + enabled_count fl)%nat /\
  (2 <= List.length (CreateBuiltinAudioEncoderFactory_args fl) <= 6)%nat.
Proof.
  destruct fl as [[] [] [] []]; cbn; lia.
Qed.

(** X3: no template argument is given twice, whatever the flags. *)
Theorem builtin_args_NoDup (fl : BuildFlags) :
  NoDup (CreateBuiltinAudioEncoderFactory_args fl).
Proof.
  destruct fl as [[] [] [] []]; cbn;
    repeat (constructor;
            [simpl; intros H;
             repeat (destruct H as [H | H]; [discriminate H|]); exact H|]);
    constructor.
Qed.

Lemma Subseq_refl {A : Type} (l : list A) : Subseq l l.
Proof. induction l; constructor; assumption. Qed.

Lemma Subseq_nil_l {A : Type} (l : list A) : Subseq [] l.
Proof. induction l; constructor; assumption. Qed.

Lemma Subseq_app {A : Type} (a b c d : list A) :
  Subseq a b -> Subseq c d -> Subseq (a ++ c) (b ++ d).
Proof.
  intros Hab Hcd. induction Hab; simpl; [exact Hcd | |]; constructor;
    assumption.
Qed.

Lemma Subseq_In {A : Type} (xs ys : list A) :
  Subseq xs ys -> forall x, In x xs -> In x ys.
Proof.
  induction 1 as [|x xs ys _ IH|y xs ys _ IH]; intros z Hz.
  - exact Hz.
  - destruct Hz as [-> | Hz]; [now left | right; now apply IH].
  - right. now apply IH.
Qed.

Lemma Subseq_concat_map {A B : Type} (g : A -> list B) (xs ys : list A) :
  Subseq xs ys -> Subseq (List.concat (map g xs)) (List.concat (map g ys)).
Proof.
  induction 1 as [|x xs ys _ IH|y xs ys _ IH]; simpl.
  - constructor.
  - apply Subseq_app; [apply Subseq_refl | exact IH].
  - apply (Subseq_app [] (g y)); [apply Subseq_nil_l | exact IH].
Qed.

Lemma flags_le_cases (fl fl' : BuildFlags) :
  flags_le fl fl' ->
  (WEBRTC_USE_BUILTIN_OPUS fl = true -> WEBRTC_USE_BUILTIN_OPUS fl' = true) /\
  (WEBRTC_USE_BUILTIN_ISAC fl = true -> WEBRTC_USE_BUILTIN_ISAC fl' = true) /\
  (WEBRTC_USE_BUILTIN_G722 fl = true -> WEBRTC_USE_BUILTIN_G722 fl' = true) /\
  (WEBRTC_USE_BUILTIN_ILBC fl = true -> WEBRTC_USE_BUILTIN_ILBC fl' = true).
Proof.
  intros H. repeat split.
  - apply (H AudioEncoderOpus).
  - apply (H AudioEncoderIsac).
  - apply (H AudioEncoderG722).
  - apply (H AudioEncoderIlbc).
Qed.

Lemma when_flag_Subseq (b b' : bool) (args : list EncoderType) :
  (b = true -> b' = true) -> Subseq (when_flag b args) (when_flag b' args).
Proof.
  destruct b, b'; simpl; intros H.
  - apply Subseq_refl.
  - discriminate (H eq_refl).
  - apply Subseq_nil_l.
  - constructor.
Qed.

(** X4: switching flags on only inserts template arguments: the list of a
    build is the list of any build with more flags on, with some entries left
    out and the others in the same order. *)
Theorem builtin_args_monotone (fl fl' : BuildFlags)
        (Hle : flags_le fl fl') :
  Subseq (CreateBuiltinAudioEncoderFactory_args fl)
         (CreateBuiltinAudioEncoderFactory_args fl').
Proof.
  apply flags_le_cases in Hle. destruct Hle as (Ho & Hi & Hg & Hl).
  unfold CreateBuiltinAudioEncoderFactory_args.
  repeat (apply Subseq_app; [now apply when_flag_Subseq|]).
  apply Subseq_refl.
Qed.

Lemma builtin_args_monotone_witness :
  Subseq (CreateBuiltinAudioEncoderFactory_args sample_flags)
         (CreateBuiltinAudioEncoderFactory_args
            (mkBuildFlags true true true true)).
Proof.
  apply builtin_args_monotone.
  intros c _. destruct c; reflexivity.
Defined.

(** X5: the flags can be read back from the template argument list, so two
    builds have the same list only if they have the same flags. *)
Theorem builtin_args_determine_flags (fl fl' : BuildFlags) :
  flags_of_args (CreateBuiltinAudioEncoderFactory_args fl) = fl /\
  (CreateBuiltinAudioEncoderFactory_args fl
   = CreateBuiltinAudioEncoderFactory_args fl' <-> fl = fl').
Proof.
  assert (H : forall g, flags_of_args (CreateBuiltinAudioEncoderFactory_args g)
                        = g)
    by (intros [[] [] [] []]; reflexivity).
  split; [apply H|]. split.
  - intros E. rewrite <- (H fl), <- (H fl'), E. reflexivity.
  - intros ->. reflexivity.
Qed.

(** ** Further properties of the builtin factory *)

Section Builtin.

Context {AudioEncoder : Type}.
Variable impl : CodecClass -> Descriptor AudioEncoder.
Implicit Types (fl : BuildFlags) (f : SdpAudioFormat) (c : CodecClass).

Lemma query_info_None_all_reject (ds : list (Descriptor AudioEncoder)) f :
  query_info ds f = None <-> all_reject ds f.
Proof.
  split; [|apply query_info_all_reject].
  intros Hnone.
  destruct (first_accepting_cases ds f) as [H | (i & D & c & H)]; [exact H|].
  apply first_accepting_scans in H. destruct H as [Hq _]. congruence.
Qed.

Lemma builtin_all_reject fl f :
  all_reject (descriptors (CreateBuiltinAudioEncoderFactory impl fl)) f <->
  (forall c, build_flag fl c = true -> SdpToConfig (impl c) f = None).
Proof.
  rewrite CreateBuiltinAudioEncoderFactory_descriptors.
  unfold all_reject. rewrite Forall_app, Forall_map, Forall_forall. split.
  - intros [Hadv Hl16] c Hon.
    destruct (CodecClass_eqb c AudioEncoderL16) eqn:E.
    + destruct c; try discriminate E. now inversion Hl16.
    + apply Hadv. apply advertised_classes_In. split; [exact Hon|].
      intros ->. discriminate E.
  - intros H. split.
    + intros c Hc. apply advertised_classes_In in Hc. now apply H.
    + constructor; [|constructor]. now apply (H AudioEncoderL16).
Qed.

(** Leaving out, or putting in, classes that reject [f] does not change the
    scans for [f]. *)
Lemma scans_filter_irrelevant (g g' : CodecClass -> bool)
      (L : list CodecClass) (tl : list (Descriptor AudioEncoder)) f :
  (forall c, In c L -> g c <> g' c -> SdpToConfig (impl c) f = None) ->
  query_info (map impl (filter g L) ++ tl) f
  = query_info (map impl (filter g' L) ++ tl) f /\
  (forall p, create_encoder (map impl (filter g L) ++ tl) f p
             = create_encoder (map impl (filter g' L) ++ tl) f p).
Proof.
  induction L as [|a L IH]; intros H; [split; reflexivity|].
  destruct IH as [IHq IHc].
  { intros c Hc. apply H. now right. }
  simpl. destruct (g a) eqn:Ega, (g' a) eqn:Eg'a; simpl.
  - destruct (SdpToConfig (impl a) f); split; auto.
  - rewrite (H a); [split; auto | now left | congruence].
  - rewrite (H a); [split; auto | now left | congruence].
  - split; auto.
Qed.

Lemma filter_Subseq {A : Type} (g g' : A -> bool) (L : list A) :
  (forall x, g x = true -> g' x = true) ->
  Subseq (filter g L) (filter g' L).
Proof.
  intros H. induction L as [|a L IH]; simpl; [constructor|].
  destruct (g a) eqn:E.
  - rewrite (H a E). now constructor.
  - destruct (g' a); [now constructor | exact IH].
Qed.

End Builtin.

(** X6: the builtin factory, with the factory template as the spec
    describes it, has no answer for a format exactly when every codec class of
    the build rejects it, G711 and the unadvertised L16 included; then
    create-encoder has no instance for it either. *)
Theorem builtin_rejects_iff_build_rejects
        (AudioEncoder : Type) (impl : CodecClass -> Descriptor AudioEncoder)
        (fl : BuildFlags) (f : SdpAudioFormat) :
  let ds := descriptors (CreateBuiltinAudioEncoderFactory impl fl) in
  (query_info ds f = None <->
   (forall c, build_flag fl c = true -> SdpToConfig (impl c) f = None)) /\
  (query_info ds f = None -> forall p, create_encoder ds f p = None).
Proof.
  intros ds. split.
  - unfold ds. now rewrite query_info_None_all_reject, builtin_all_reject.
  - intros H p. apply create_encoder_all_reject.
    now apply query_info_None_all_reject.
Qed.

Lemma builtin_rejects_iff_build_rejects_witness :
  query_info
    (descriptors (CreateBuiltinAudioEncoderFactory sample_impl sample_flags))
    (fmt "opus" 48000 2) = None /\
  create_encoder
    (descriptors (CreateBuiltinAudioEncoderFactory sample_impl sample_flags))
    (fmt "opus" 48000 2) 100 = None.
Proof.
  destruct (builtin_rejects_iff_build_rejects
              SampleEncoder sample_impl sample_flags (fmt "opus" 48000 2))
    as [Hiff Hcreate].
  assert (Hq : query_info
                 (descriptors (CreateBuiltinAudioEncoderFactory
                                 sample_impl sample_flags))
                 (fmt "opus" 48000 2) = None).
  { apply Hiff. intros c Hon. destruct c; try reflexivity. discriminate Hon. }
  split; [exact Hq | exact (Hcreate Hq 100)].
Defined.

(** X7: the builtin factory, with the factory template as the spec
    describes it, gives priority in the order Opus, iSAC, G722, iLBC, G711,
    L16: a class of the build that accepts the format is the one used as soon
    as the classes of the build that come before it in that order reject
    it. *)
Theorem builtin_priority_order
        (AudioEncoder : Type) (impl : CodecClass -> Descriptor AudioEncoder)
        (fl : BuildFlags) (f : SdpAudioFormat)
        (c : CodecClass) (cfg : Config (impl c))
        (Hon : build_flag fl c = true)
        (Hc : SdpToConfig (impl c) f = Some cfg)
        (Hbefore : forall c', build_flag fl c' = true ->
                              (class_rank c' < class_rank c)%nat ->
                              SdpToConfig (impl c') f = None) :
  let ds := descriptors (CreateBuiltinAudioEncoderFactory impl fl) in
  query_info ds f = Some (QueryAudioEncoder (impl c) cfg) /\
  (forall p, create_encoder ds f p = MakeAudioEncoder (impl c) cfg p).
Proof.
  intros ds. unfold ds. rewrite CreateBuiltinAudioEncoderFactory_descriptors.
  assert (Hsplit : exists pre post,
             map impl (advertised_classes fl) ++
             [NotAdvertised (impl AudioEncoderL16)]
             = map impl pre ++
               (if CodecClass_eqb c AudioEncoderL16
                then NotAdvertised (impl c) else impl c) :: post /\
             forall c', In c' pre ->
                        build_flag fl c' = true /\
                        (class_rank c' < class_rank c)%nat).
  { destruct fl as [[] [] [] []], c; try discriminate Hon;
      unfold advertised_classes; simpl;
      let solve_in :=
        (intros c' Hin; simpl in Hin;
         repeat (destruct Hin as [<- | Hin]; [split; [reflexivity|simpl; lia]|]);
         destruct Hin) in
      first
        [ now (eexists [], _; split; [reflexivity | intros c' []])
        | now (eexists [_], _; split; [reflexivity | solve_in])
        | now (eexists [_; _], _; split; [reflexivity | solve_in])
        | now (eexists [_; _; _], _; split; [reflexivity | solve_in])
        | now (eexists [_; _; _; _], _; split; [reflexivity | solve_in])
        | now (eexists [_; _; _; _; _], _; split; [reflexivity | solve_in]) ]. }
  destruct Hsplit as (pre & post & -> & Hpre).
  assert (Hrej : all_reject (map impl pre) f).
  { apply Forall_map, Forall_forall. intros c' Hc'.
    destruct (Hpre c' Hc'). now apply Hbefore. }
  destruct (CodecClass_eqb c AudioEncoderL16).
  - destruct (scans_at_first_accepting (map impl pre) (NotAdvertised (impl c))
                post f cfg Hrej Hc) as (Hq & Hm & _).
    split; [exact Hq | exact Hm].
  - destruct (scans_at_first_accepting (map impl pre) (impl c)
                post f cfg Hrej Hc) as (Hq & Hm & _).
    split; [exact Hq | exact Hm].
Qed.

Lemma builtin_priority_order_witness :
  query_info
    (descriptors (CreateBuiltinAudioEncoderFactory sample_impl sample_flags))
    (fmt "L16" 16000 1)
  = Some (mkAudioCodecInfo 16000 1 128000 128000) /\
  create_encoder
    (descriptors (CreateBuiltinAudioEncoderFactory sample_impl sample_flags))
    (fmt "L16" 16000 1) 96
  = Some (mkSampleEncoder "l16" 96).
Proof.
  destruct (builtin_priority_order SampleEncoder sample_impl sample_flags
              (fmt "L16" 16000 1) AudioEncoderL16 16000 eq_refl eq_refl)
    as [Hq Hm].
  - intros c' _ Hlt. destruct c'; try reflexivity. simpl in Hlt. lia.
  - split; [exact Hq | exact (Hm 96)].
Defined.

(** X8: two builds that differ only in codec classes that reject a format
    answer alike for that format (with the factory template as the spec
    describes it): switching a codec on or off affects only the formats that
    this codec accepts. *)
Theorem builtin_flag_independence
        (AudioEncoder : Type) (impl : CodecClass -> Descriptor AudioEncoder)
        (fl fl' : BuildFlags) (f : SdpAudioFormat)
        (Hdiff : forall c, build_flag fl c <> build_flag fl' c ->
                           SdpToConfig (impl c) f = None) :
  query_info (descriptors (CreateBuiltinAudioEncoderFactory impl fl)) f
  = query_info (descriptors (CreateBuiltinAudioEncoderFactory impl fl')) f /\
  (forall p,
      create_encoder (descriptors (CreateBuiltinAudioEncoderFactory impl fl))
                     f p
      = create_encoder (descriptors (CreateBuiltinAudioEncoderFactory impl fl'))
                       f p).
Proof.
  rewrite !CreateBuiltinAudioEncoderFactory_descriptors.
  unfold advertised_classes. apply scans_filter_irrelevant.
  intros c _. apply Hdiff.
Qed.

Lemma builtin_flag_independence_witness :
  query_info
    (descriptors (CreateBuiltinAudioEncoderFactory sample_impl sample_flags))
    (fmt "PCMU" 8000 1)
  = query_info
      (descriptors (CreateBuiltinAudioEncoderFactory
                      sample_impl (mkBuildFlags true false true false)))
      (fmt "PCMU" 8000 1).
Proof.
  apply (builtin_flag_independence SampleEncoder sample_impl sample_flags
           (mkBuildFlags true false true false) (fmt "PCMU" 8000 1)).
  intros c Hne. destruct c; try reflexivity; now elim Hne.
Defined.

(** X9: switching more flags on never takes an answer away (with the factory
    template as the spec describes it): a format that a build has an answer
    for has one in every build with more flags on, and, for codec classes
    that append their lists, what the smaller build advertises is what the
    larger one advertises with some entries left out, in the same order. *)
Theorem builtin_monotone
        (AudioEncoder : Type) (impl : CodecClass -> Descriptor AudioEncoder)
        (fl fl' : BuildFlags) (Hle : flags_le fl fl') :
  (forall f,
      query_info (descriptors (CreateBuiltinAudioEncoderFactory impl fl)) f
      <> None ->
      query_info (descriptors (CreateBuiltinAudioEncoderFactory impl fl')) f
      <> None) /\
  ((forall c, appends_only (impl c)) ->
   Subseq
     (get_supported_formats
        (descriptors (CreateBuiltinAudioEncoderFactory impl fl)))
     (get_supported_formats
        (descriptors (CreateBuiltinAudioEncoderFactory impl fl')))).
Proof.
  split.
  - intros f Hsome Hnone. apply Hsome.
    apply query_info_None_all_reject, builtin_all_reject.
    apply query_info_None_all_reject in Hnone.
    rewrite builtin_all_reject in Hnone.
    intros c Hon. apply Hnone. now apply Hle.
  - intros Happend. rewrite !builtin_get_supported_formats by exact Happend.
    apply Subseq_concat_map. unfold advertised_classes.
    apply filter_Subseq. exact Hle.
Qed.

Lemma builtin_monotone_witness :
  query_info
    (descriptors (CreateBuiltinAudioEncoderFactory
                    sample_impl (mkBuildFlags true true true true)))
    (fmt "ILBC" 8000 1) <> None /\
  Subseq
    (get_supported_formats
       (descriptors (CreateBuiltinAudioEncoderFactory sample_impl
                                                      sample_flags)))
    (get_supported_formats
       (descriptors (CreateBuiltinAudioEncoderFactory
                       sample_impl (mkBuildFlags true true true true)))).
Proof.
  destruct (builtin_monotone SampleEncoder sample_impl sample_flags
              (mkBuildFlags true true true true)) as [Hq Hs].
  - intros c _. destruct c; reflexivity.
  - split.
    + apply Hq. discriminate.
    + apply Hs. intros c. destruct c; intros specs; reflexivity.
Defined.
